(** * proof-of-hat: a shallow embedding of the tweet resolver and the
    visual verifier (src/src/index.ts, the schema-validated variant, and
    src/unnamed/part_000, the free-text variant). *)

From Stdlib Require Import String Ascii List Bool Arith Lia.
Import ListNotations.
Local Open Scope string_scope.

(* ------------------------------------------------------------------ *)
(** ** JavaScript helpers *)

(** The double quote character, used to spell the prompts. *)
Definition dq : string := String (Ascii.ascii_of_nat 34) EmptyString.

(** A newline. *)
Definition nl : string := String (Ascii.ascii_of_nat 10) EmptyString.

(** Truthiness of a value of type [string | undefined]: [undefined] and the
    empty string are falsy. *)
Definition truthy (o : option string) : bool :=
  match o with
  | Some s => negb (String.eqb s EmptyString)
  | None => false
  end.

(** [a || b] on [string | undefined] operands. *)
Definition js_or (a b : option string) : option string :=
  if truthy a then a else b.

(** Template-literal rendering of a [string | undefined]. *)
Definition render (o : option string) : string :=
  match o with Some s => s | None => "undefined" end.

(** [String.prototype.startsWith]. *)
Fixpoint startsWith (s k : string) : bool :=
  match k, s with
  | EmptyString, _ => true
  | String c k', String c' s' => Ascii.eqb c c' && startsWith s' k'
  | String _ _, EmptyString => false
  end.

(** [String.prototype.includes]. *)
Fixpoint str_includes (s k : string) : bool :=
  match s with
  | EmptyString => startsWith s k
  | String _ s' => startsWith s k || str_includes s' k
  end.

(** [String.prototype.toLowerCase] on ASCII characters. *)
Definition lower_ascii (c : ascii) : ascii :=
  let n := Ascii.nat_of_ascii c in
  if ((65 <=? n) && (n <=? 90))%nat then Ascii.ascii_of_nat (n + 32)%nat else c.

Fixpoint toLowerCase (s : string) : string :=
  match s with
  | EmptyString => EmptyString
  | String c s' => String (lower_ascii c) (toLowerCase s')
  end.

(** Optional chaining [o?.f]. *)
Definition ochain {A B} (f : A -> option B) (o : option A) : option B :=
  match o with Some a => f a | None => None end.

(** [Array.prototype.some]. *)
Definition some {A} (p : A -> bool) (l : list A) : bool := existsb p l.

(* ------------------------------------------------------------------ *)
(** ** Twitter API v2 response shapes *)

(** One entry of [includes.media]. *)
Record Media := mkMedia {
  type : string;                       (* 'photo' | 'video' | 'animated_gif' *)
  url : option string;
  preview_image_url : option string
}.

(** One entry of the [errors] array. *)
Record ApiError := mkApiError {
  detail : option string;
  title : option string
}.

Record TweetData := mkTweetData { text : option string }.

Record Includes := mkIncludes { media : option (list Media) }.

(** The value resolved by [readOnlyTwitterClient.v2.singleTweet]. *)
Record TweetResp := mkTweetResp {
  errors : option (list ApiError);
  data : option TweetData;
  includes : option Includes
}.

(** The value returned by [fetchTweetData]. *)
Record Resolved := mkResolved {
  imageUrl : option string;
  rtext : option string
}.

(** Console output. *)
Inductive Log :=
| LInfo (msg : string)
| LWarn (msg : string)
| LError (msg : string).

Definition is_photo (m : Media) : bool := String.eqb (type m) "photo".
Definition is_video (m : Media) : bool := String.eqb (type m) "video".

(** Lines 56-77 of src/src/index.ts: the image-URL selection, as three
    successive [media.find] calls. *)
Definition selectImageUrl (media : option (list Media)) : option string :=
  match media with
  | Some ((_ :: _) as ms) =>
      let photoMedia := find (fun m => is_photo m && truthy (url m)) ms in
      if truthy (ochain url photoMedia) then ochain url photoMedia
      else
        let photoPreviewMedia :=
          find (fun m => is_photo m && truthy (preview_image_url m)) ms in
        if truthy (ochain preview_image_url photoPreviewMedia)
        then ochain preview_image_url photoPreviewMedia
        else
          let videoMediaWithPreview :=
            find (fun m => is_video m && truthy (preview_image_url m)) ms in
          if truthy (ochain preview_image_url videoMediaWithPreview)
          then ochain preview_image_url videoMediaWithPreview
          else None
  | _ => None
  end.

(** [fetchTweetData tweetId]: [api] is the outcome of the [singleTweet]
    call (a rejection message or the response). The result is the console
    output and either the message of the thrown [Error] or the resolved
    value. Everything inside the [try] that throws is re-thrown by the
    [catch] with the prefix [Failed to process tweet <id>: ]. *)
Definition fetchTweetData (tweetId : string) (api : string + TweetResp)
  : list Log * (string + Resolved) :=
  let start := LInfo ("Fetching tweet from Twitter API: " ++ tweetId) in
  let fail (logs : list Log) (message : string) :=
    (start :: (logs ++
       [LError ("Error fetching or processing tweet " ++ tweetId ++ " from API:" ++ message)])%list,
     inl ("Failed to process tweet " ++ tweetId ++ ": " ++ message)) in
  match api with
  | inl e => fail [] e
  | inr tweet =>
      match errors tweet with
      | Some ((e0 :: _) as es) =>
          let errorDetail := js_or (detail e0) (title e0) in
          fail [LError ("Error fetching tweet:" ++ render errorDetail)]
               ("Failed to fetch tweet: " ++ render errorDetail)
      | _ =>
          match data tweet with
          | None => fail [] "Tweet data not found in API response."
          | Some d =>
              let imageUrl := selectImageUrl (ochain media (includes tweet)) in
              let warn :=
                if negb (truthy imageUrl)
                then [LWarn ("Tweet " ++ tweetId ++
                        " does not appear to contain a usable image URL (photo or video thumbnail).")]
                else [] in
              (start :: warn, inr (mkResolved imageUrl (text d)))
          end
      end
  end.

(* ------------------------------------------------------------------ *)
(** ** The schema-validated verifier (src/src/index.ts) *)

Definition TWEET_ID : string := "1921299860000518230".

Definition referenceImageUrls : list string := [
  "https://raw.githubusercontent.com/KuphJr/proof-of-hat/main/tunnl-hat-front.jpg";
  "https://raw.githubusercontent.com/KuphJr/proof-of-hat/main/tunnl-hat-side-1.jpg";
  "https://raw.githubusercontent.com/KuphJr/proof-of-hat/main/tunnl-hat-side-2.jpg"
].

Definition systemPrompt : string :=
  "You are a vision model that analyzes images to determine if they contain a black baseball hat with a "
  ++ dq ++ "tunnl" ++ dq ++ " logo on it anywhere within the image.".

Definition userPrompt : string :=
  "The first 3 images are reference photos of the black baseball cap with the white " ++ dq ++ "tunnl"
  ++ dq ++ " logo. The last image is the image you are analyzing." ++ nl
  ++ "Please analyze the final image and return your answer in this exact JSON format:" ++ nl
  ++ "{" ++ nl
  ++ "  " ++ dq ++ "result" ++ dq ++ ": true if the image contains a black baseball hat with a "
  ++ dq ++ "tunnl" ++ dq ++ " logo on it. false if you cannot see the hat with the logo anywhere in the image." ++ nl
  ++ "  " ++ dq ++ "reasoning" ++ dq ++ ": " ++ dq
  ++ "Short explanation of why or why not you think the image contains a black baseball hat with a "
  ++ dq ++ "tunnl" ++ dq ++ " logo on it." ++ dq ++ nl
  ++ "}" ++ nl ++ nl
  ++ "Only output the JSON object.".

(** A content part of a chat message. *)
Inductive Part :=
| PText (text : string)               (* { type: "text", text } *)
| PImageUrl (url : string).           (* { type: "image_url", image_url: { url } } *)

Inductive Content :=
| CString (s : string)
| CParts (ps : list Part).

Record ChatMessage := mkChatMessage { role : string; content : Content }.

(** [zodResponseFormat(verificationResponseSchema, 'response')]: the schema
    {result: boolean, reasoning: string} under the name ['response']. *)
Record ResponseFormat := mkResponseFormat { schema_name : string; schema_fields : list (string * string) }.

Definition verificationResponseFormat : ResponseFormat :=
  mkResponseFormat "response" [("result", "boolean"); ("reasoning", "string")].

(** The argument of [openai.beta.chat.completions.parse]. *)
Record ChatRequest := mkChatRequest {
  model : string;
  temperature : nat;
  messages : list ChatMessage;
  response_format : ResponseFormat
}.

(** [z.infer<typeof verificationResponseSchema>]. *)
Record VerificationResult := mkVerificationResult { result : bool; reasoning : string }.

Record ParsedMessage := mkParsedMessage { parsed : option VerificationResult }.
Record Choice := mkChoice { message : option ParsedMessage }.
Record ChatResp := mkChatResp { choices : list Choice }.

(** The request built by [askOpenAIAboutImage imageUrl]. *)
Definition buildRequest (imageUrl : string) : ChatRequest :=
  let referenceImageMessages := map (fun u => PImageUrl u) referenceImageUrls in
  let imageToAnalyzeMessage := PImageUrl imageUrl in
  mkChatRequest "gpt-4o" 0
    [ mkChatMessage "system" (CString systemPrompt);
      mkChatMessage "user"
        (CParts (PText userPrompt :: referenceImageMessages ++ [imageToAnalyzeMessage])) ]
    verificationResponseFormat.

(** [askOpenAIAboutImage imageUrl]: [api] answers a request with a
    rejection message or a response. The result is the list of requests
    sent, the console output and either the thrown message or the value
    [result.choices[0]?.message?.parsed] ([None] stands for [undefined]). *)
Definition askOpenAIAboutImage (imageUrl : string) (api : ChatRequest -> string + ChatResp)
  : list ChatRequest * list Log * (string + option VerificationResult) :=
  let req := buildRequest imageUrl in
  match api req with
  | inl e =>
      ([req], [LError ("Error asking OpenAI:" ++ e)],
       inl ("Failed to get response from OpenAI about the image. " ++ e))
  | inr r =>
      ([req], [], inr (ochain parsed (ochain message (hd_error (choices r)))))
  end.

(** How a call of [main()] ends: [process.exit(code)] inside it, a fulfilled
    promise, or a rejected one. *)
Inductive Outcome :=
| Exit (code : nat)
| Fulfilled
| Rejected (msg : string).

(** [process.env]. *)
Record Env := mkEnv { OPENAI_API_KEY : option string; TWITTER_BEARER_TOKEN : option string }.

(** [main()] of src/src/index.ts. *)
Definition main_schema (twitter : string + TweetResp) (openai : ChatRequest -> string + ChatResp)
  : list Log * Outcome :=
  let start := LInfo ("Processing Tweet ID: " ++ TWEET_ID) in
  let catch (logs : list Log) (errorMessage : string) :=
    (start :: (logs ++ [LError ("Error in main execution:" ++ errorMessage)])%list, Exit 1) in
  match fetchTweetData TWEET_ID twitter with
  | (l1, inl msg) => catch l1 msg
  | (l1, inr tweetData) =>
      let l2 := (l1 ++ [LInfo ("Image URL: " ++ render (imageUrl tweetData))])%list in
      match imageUrl tweetData with
      | Some u =>
          if truthy (Some u) then
            match askOpenAIAboutImage u openai with
            | (_, l3, inl msg) => catch (l2 ++ l3)%list msg
            | (_, l3, inr v) => (start :: (l2 ++ l3 ++ [LInfo "<openAIResponse>"])%list, Fulfilled)
            end
          else catch l2 ("No image URL found for Tweet ID: " ++ TWEET_ID ++ ".")
      | None => catch l2 ("No image URL found for Tweet ID: " ++ TWEET_ID ++ ".")
      end
  end.

(** The whole process of src/src/index.ts: the two configuration checks
    at module load, then [main().catch(... process.exit(1))]. The value is
    the exit code. *)
Definition run_schema (env : Env) (twitter : string + TweetResp)
  (openai : ChatRequest -> string + ChatResp) : nat :=
  if negb (truthy (OPENAI_API_KEY env)) then 1
  else if negb (truthy (TWITTER_BEARER_TOKEN env)) then 1
  else match snd (main_schema twitter openai) with
       | Exit n => n
       | Fulfilled => 0
       | Rejected _ => 1
       end.

(* ------------------------------------------------------------------ *)
(** ** The free-text verifier (src/unnamed/part_000) *)

Module FreeText.

Definition TWEET_ID : string := "1921316529062265045".

Definition question : string :=
  "Does this picture contain a black baseball hat with a " ++ dq ++ "tunnl" ++ dq ++ " logo on it?" ++ nl
  ++ "I have provided you with 3 example images of the hat with the Tunnl logo on it named "
  ++ dq ++ "tunnl-hat-front.jpg" ++ dq ++ ", " ++ dq ++ "tunnl-hat-side-1.jpg" ++ dq ++ ", and "
  ++ dq ++ "tunnl-hat-side-2.jpg" ++ dq ++ "." ++ nl
  ++ "The image you are analyzing is named " ++ dq ++ "posted-image.jpg" ++ dq ++ "." ++ nl
  ++ "If you cannot see the hat with the logo anywhere in the image, respond with " ++ dq ++ "no" ++ dq ++ "." ++ nl
  ++ "If you can see the hat with the logo anywhere in the image, respond with " ++ dq ++ "yes" ++ dq ++ "." ++ nl.

(** A content part of a Responses-API input message. *)
Inductive InputPart :=
| InputText (text : string)           (* { type: "input_text", text } *)
| InputImage (image_url : string).    (* { type: "input_image", image_url } *)

Record InputMessage := mkInputMessage { role : string; content : list InputPart }.

(** The argument of [openai.responses.create]. *)
Record Request := mkRequest {
  model : string;
  temperature : nat;
  input : list InputMessage;
  text_format : ResponseFormat         (* [zodTextFormat(verificationResponseSchema, 'response')] *)
}.

Record Message := mkMessage { content_of : option string }.
Record Choice := mkChoice { message : option Message }.
Record Resp := mkResp { choices : list Choice }.

(** The request built by [askOpenAIAboutImage imageUrl question]. *)
Definition buildRequest (imageUrl : string) (question : string) : Request :=
  mkRequest "gpt-4o" 0
    [ mkInputMessage "user" [ InputText question ] ]
    verificationResponseFormat.

(** [askOpenAIAboutImage imageUrl question]: the requests sent, the console
    output, and the thrown message or [response.choices[0]?.message?.content]
    ([None] stands for [null] and [undefined]). *)
Definition askOpenAIAboutImage (imageUrl question : string) (api : Request -> string + Resp)
  : list Request * list Log * (string + option string) :=
  let req := buildRequest imageUrl question in
  match api req with
  | inl e =>
      ([req], [LError ("Error asking OpenAI:" ++ e)],
       inl ("Failed to get response from OpenAI about the image. " ++ e))
  | inr r => ([req], [], inr (ochain content_of (ochain message (hd_error (choices r)))))
  end.

Definition positiveKeywords : list string := ["yes"; "it does"; "shows a black baseball hat"].
Definition negativeKeywords : list string := ["no"; "it does not"; "does not show"].

(** What [main] concludes about the hat. *)
Inductive Verdict :=
| Decided (result : bool)              (* "Does the image contain ...? <result>" *)
| AmbiguousAssumeFalse                 (* "Assuming 'false' due to ambiguous response ..." *)
| NoResponseFalse                      (* "... false (no OpenAI response)" *)
| ErrorFalse (errorMessage : string).  (* "... false (due to error: ...)" *)

(** Lines 152-171: keyword matching on a truthy response. *)
Definition keywordVerdict (openAIResponse : string) : Verdict :=
  let responseLower := toLowerCase openAIResponse in
  if some (fun keyword => str_includes responseLower keyword) positiveKeywords then Decided true
  else if some (fun keyword => str_includes responseLower keyword) negativeKeywords then Decided false
  else AmbiguousAssumeFalse.

(** [main()] of src/unnamed/part_000: the verdict it prints and how it ends.
    Its [catch] logs the error and prints a [false] result; it does not call
    [process.exit]. *)
Definition main_free (twitter : string + TweetResp) (openai : Request -> string + Resp)
  : Verdict * Outcome :=
  match snd (fetchTweetData TWEET_ID twitter) with
  | inl msg => (ErrorFalse msg, Fulfilled)
  | inr tweetData =>
      if negb (truthy (imageUrl tweetData))
      then (ErrorFalse ("No image URL found for Tweet ID: " ++ TWEET_ID ++ "."), Fulfilled)
      else
        match snd (askOpenAIAboutImage (render (imageUrl tweetData)) question openai) with
        | inl msg => (ErrorFalse msg, Fulfilled)
        | inr openAIResponse =>
            if truthy openAIResponse
            then (keywordVerdict (render openAIResponse), Fulfilled)
            else (NoResponseFalse, Fulfilled)
        end
  end.

(** The whole process of src/unnamed/part_000: the checks at module load
    (a missing [OPENAI_API_KEY] ends the process with code 1, by the check
    or by the client constructor that runs before it), then
    [main().catch(... process.exit(1))]. *)
Definition run_free (env : Env) (twitter : string + TweetResp)
  (openai : Request -> string + Resp) : nat :=
  if negb (truthy (OPENAI_API_KEY env)) then 1
  else if negb (truthy (TWITTER_BEARER_TOKEN env)) then 1
  else match snd (main_free twitter openai) with
       | Exit n => n
       | Fulfilled => 0
       | Rejected _ => 1
       end.

End FreeText.



(* ------------------------------------------------------------------ *)
(** ** The selection order in the spec's words *)

Definition cand_photo_url (m : Media) : bool := is_photo m && truthy (url m).
Definition cand_photo_preview (m : Media) : bool := is_photo m && truthy (preview_image_url m).
Definition cand_video_preview (m : Media) : bool := is_video m && truthy (preview_image_url m).

(** [m] is the first element of [l] satisfying [p]. *)
Definition FirstMatch (p : Media -> bool) (l : list Media) (m : Media) : Prop :=
  exists pre post, l = (pre ++ m :: post)%list /\ p m = true /\ Forall (fun x => p x = false) pre.

Definition NoMatch (p : Media -> bool) (l : list Media) : Prop :=
  forall x, In x l -> p x = false.

(** Section 4.1 of the spec: rules 1 to 4, first match wins, scanning in
    API-returned order. *)
Inductive SpecSelect (l : list Media) : option string -> Prop :=
| Rule1 m u : FirstMatch cand_photo_url l m -> url m = Some u -> SpecSelect l (Some u)
| Rule2 m u : NoMatch cand_photo_url l -> FirstMatch cand_photo_preview l m ->
              preview_image_url m = Some u -> SpecSelect l (Some u)
| Rule3 m u : NoMatch cand_photo_url l -> NoMatch cand_photo_preview l ->
              FirstMatch cand_video_preview l m -> preview_image_url m = Some u ->
              SpecSelect l (Some u)
| Rule4 : NoMatch cand_photo_url l -> NoMatch cand_photo_preview l ->
          NoMatch cand_video_preview l -> SpecSelect l None.

(* ------------------------------------------------------------------ *)
(** ** Auxiliary predicates and concrete inputs *)

Definition ex_photo : Media := mkMedia "photo" (Some "https://pbs.twimg.com/a.jpg") (Some "https://pbs.twimg.com/a_thumb.jpg").
Definition ex_video : Media := mkMedia "video" None (Some "https://pbs.twimg.com/v_thumb.jpg").

Definition ex_error_resp : TweetResp :=
  mkTweetResp (Some [mkApiError (Some "Could not find tweet with id: [1].") (Some "Not Found Error")])
              None None.

(** [tweet.errors && tweet.errors.length > 0] is falsy. *)
Definition no_errors (resp : TweetResp) : Prop := errors resp = None \/ errors resp = Some [].

Definition ex_gif_resp : TweetResp :=
  mkTweetResp None (Some (mkTweetData (Some "gm")))
    (Some (mkIncludes (Some [mkMedia "animated_gif" None (Some "https://pbs.twimg.com/g.jpg")]))).

Definition ex_photo_resp : TweetResp :=
  mkTweetResp None (Some (mkTweetData (Some "hat")))
    (Some (mkIncludes (Some [ex_video; ex_photo]))).

Definition ex_verdict : VerificationResult := mkVerificationResult true "hat visible on subject's head".

Definition ex_openai (r : ChatRequest) : string + ChatResp :=
  inr (mkChatResp [mkChoice (Some (mkParsedMessage (Some ex_verdict)))]).

Definition ex_openai_empty (r : ChatRequest) : string + ChatResp := inr (mkChatResp []).

(** [s] contains [k] as a substring. *)
Definition Contains (s k : string) : Prop := exists pre suf, s = pre ++ k ++ suf.

Definition configured (env : Env) : Prop :=
  truthy (OPENAI_API_KEY env) = true /\ truthy (TWITTER_BEARER_TOKEN env) = true.

Definition ex_env : Env := mkEnv (Some "sk-test") (Some "AAAA-bearer").
Definition ex_env_no_token : Env := mkEnv (Some "sk-test") None.

Definition ex_free_openai (r : FreeText.Request) : string + FreeText.Resp :=
  inr (FreeText.mkResp [FreeText.mkChoice (Some (FreeText.mkMessage (Some "Maybe.")))]).

Definition ex_openai_down (r : ChatRequest) : string + ChatResp := inl "Connection error.".

Definition ex_free_openai_null (r : FreeText.Request) : string + FreeText.Resp :=
  inr (FreeText.mkResp [FreeText.mkChoice (Some (FreeText.mkMessage None))]).

(* ------------------------------------------------------------------ *)
(** ** Facts about the JavaScript helpers *)

Lemma truthy_some (s : string) : truthy (Some s) = true <-> s <> EmptyString.
Proof.
  unfold truthy. destruct (String.eqb s EmptyString) eqn:E; simpl.
  - apply String.eqb_eq in E. split; congruence.
  - apply String.eqb_neq in E. tauto.
Qed.

Lemma truthy_Some_inv (o : option string) : truthy o = true -> exists s, o = Some s /\ s <> EmptyString.
Proof.
  destruct o as [s|]; simpl; [|discriminate].
  intros H. exists s. split; [reflexivity|]. apply truthy_some. exact H.
Qed.

Lemma find_FirstMatch (p : Media -> bool) (l : list Media) (m : Media) :
  find p l = Some m <-> FirstMatch p l m.
Proof.
  split.
  - induction l as [|x l IH]; simpl; [discriminate|].
    destruct (p x) eqn:Px.
    + intros [= <-]. exists [], l. repeat split; auto.
    + intros H. destruct (IH H) as (pre & post & -> & Pm & Hpre).
      exists (x :: pre), post. repeat split; auto.
  - intros (pre & post & -> & Pm & Hpre). induction Hpre as [|x pre Px _ IH]; simpl.
    + rewrite Pm. reflexivity.
    + rewrite Px. exact IH.
Qed.

Lemma find_NoMatch (p : Media -> bool) (l : list Media) :
  find p l = None <-> NoMatch p l.
Proof.
  split.
  - intros H x Hx. induction l as [|y l IH]; simpl in *; [contradiction|].
    destruct (p y) eqn:Py; [discriminate|]. destruct Hx as [<-|Hx]; auto.
  - intros H. induction l as [|y l IH]; simpl; [reflexivity|].
    rewrite (H y (or_introl eq_refl)). apply IH. intros x Hx. apply H. right. exact Hx.
Qed.

(** [selectImageUrl] as a cascade over the three [find] results. *)
Lemma selectImageUrl_cascade (l : list Media) :
  selectImageUrl (Some l) =
  match find cand_photo_url l with
  | Some m => url m
  | None =>
      match find cand_photo_preview l with
      | Some m => preview_image_url m
      | None =>
          match find cand_video_preview l with
          | Some m => preview_image_url m
          | None => None
          end
      end
  end.
Proof.
  destruct l as [|x l]; [reflexivity|].
  unfold selectImageUrl. fold cand_photo_url cand_photo_preview cand_video_preview.
  destruct (find cand_photo_url (x :: l)) as [m|] eqn:F1.
  { apply find_some in F1 as [_ H]. unfold cand_photo_url in H.
    apply andb_prop in H as [_ H]. simpl. rewrite H. reflexivity. }
  destruct (find cand_photo_preview (x :: l)) as [m|] eqn:F2.
  { apply find_some in F2 as [_ H]. unfold cand_photo_preview in H.
    apply andb_prop in H as [_ H]. simpl. rewrite H. reflexivity. }
  destruct (find cand_video_preview (x :: l)) as [m|] eqn:F3.
  { apply find_some in F3 as [_ H]. unfold cand_video_preview in H.
    apply andb_prop in H as [_ H]. simpl. rewrite H. reflexivity. }
  reflexivity.
Qed.

Lemma find_some_cand (p : Media -> bool) (l : list Media) (m : Media) :
  In m l -> p m = true -> exists m', find p l = Some m' /\ In m' l /\ p m' = true.
Proof.
  intros Hin Hp. destruct (find p l) as [m'|] eqn:F.
  - exists m'. apply find_some in F as [? ?]. auto.
  - rewrite (find_none p l F m Hin) in Hp. discriminate.
Qed.

Lemma NoMatch_photo (p : Media -> bool) (l : list Media) :
  (forall x, p x = true -> is_photo x = true) ->
  (forall x, In x l -> is_photo x = false) -> NoMatch p l.
Proof.
  intros Hp Hl x Hx. destruct (p x) eqn:E; [|reflexivity].
  specialize (Hp x E). rewrite (Hl x Hx) in Hp. discriminate.
Qed.

(** Existence half of the refinement. *)
Lemma selectImageUrl_SpecSelect (l : list Media) : SpecSelect l (selectImageUrl (Some l)).
Proof.
  rewrite selectImageUrl_cascade.
  destruct (find cand_photo_url l) as [m|] eqn:F1.
  { pose proof (find_some _ _ F1) as [_ H]. unfold cand_photo_url in H.
    apply andb_prop in H as [_ H]. apply truthy_Some_inv in H as (u & Hu & _).
    rewrite Hu. apply (Rule1 l m u); [apply find_FirstMatch; exact F1 | exact Hu]. }
  apply find_NoMatch in F1.
  destruct (find cand_photo_preview l) as [m|] eqn:F2.
  { pose proof (find_some _ _ F2) as [_ H]. unfold cand_photo_preview in H.
    apply andb_prop in H as [_ H]. apply truthy_Some_inv in H as (u & Hu & _).
    rewrite Hu. apply (Rule2 l m u); [exact F1 | apply find_FirstMatch; exact F2 | exact Hu]. }
  apply find_NoMatch in F2.
  destruct (find cand_video_preview l) as [m|] eqn:F3.
  { pose proof (find_some _ _ F3) as [_ H]. unfold cand_video_preview in H.
    apply andb_prop in H as [_ H]. apply truthy_Some_inv in H as (u & Hu & _).
    rewrite Hu. apply (Rule3 l m u); [exact F1 | exact F2 | apply find_FirstMatch; exact F3 | exact Hu]. }
  apply find_NoMatch in F3. apply Rule4; assumption.
Qed.

(** Uniqueness half of the refinement. *)
Lemma SpecSelect_selectImageUrl (l : list Media) (r : option string) :
  SpecSelect l r -> r = selectImageUrl (Some l).
Proof.
  rewrite selectImageUrl_cascade.
  intros [m u F Hu | m u N1 F Hu | m u N1 N2 F Hu | N1 N2 N3];
    repeat match goal with
    | H : FirstMatch _ _ _ |- _ => apply find_FirstMatch in H; rewrite H
    | H : NoMatch _ _ |- _ => apply find_NoMatch in H; rewrite H
    end; congruence.
Qed.

(* ------------------------------------------------------------------ *)
(** ** Claims about the tweet resolver *)

(** C1: the resolver's image-URL selection is exactly the precedence of the
    spec (first photo with a non-empty direct url, else first photo with a
    non-empty preview_image_url, else first video with a non-empty
    preview_image_url, else none, scanning in list order). In particular a
    list holding a photo with both URLs yields a photo's direct URL (rule 1
    beats rule 2), and a list without photos that holds a video with a
    preview URL yields a video's preview URL, which is non-empty. *)
Theorem C1_selectImageUrl_precedence :
  (forall l, SpecSelect l (selectImageUrl (Some l)) /\
             (forall r, SpecSelect l r -> r = selectImageUrl (Some l))) /\
  (forall l m, In m l -> is_photo m = true -> truthy (url m) = true ->
     truthy (preview_image_url m) = true ->
     exists m', In m' l /\ is_photo m' = true /\ truthy (url m') = true /\
                selectImageUrl (Some l) = url m') /\
  (forall l v, (forall x, In x l -> is_photo x = false) -> In v l ->
     is_video v = true -> truthy (preview_image_url v) = true ->
     exists v', In v' l /\ is_video v' = true /\
                selectImageUrl (Some l) = preview_image_url v' /\
                truthy (selectImageUrl (Some l)) = true).
Proof.
  split; [|split].
  - intros l. split; [apply selectImageUrl_SpecSelect | apply SpecSelect_selectImageUrl].
  - intros l m Hin Hph Hu _.
    destruct (find_some_cand cand_photo_url l m Hin) as (m' & F & Hin' & Hc).
    { unfold cand_photo_url. rewrite Hph, Hu. reflexivity. }
    unfold cand_photo_url in Hc. apply andb_prop in Hc as [Hph' Hu'].
    exists m'. repeat split; auto. rewrite selectImageUrl_cascade, F. reflexivity.
  - intros l v Hnp Hin Hv Hp.
    assert (N1 : find cand_photo_url l = None).
    { apply find_NoMatch, NoMatch_photo; [|exact Hnp].
      intros x Hx. unfold cand_photo_url in Hx. apply andb_prop in Hx. tauto. }
    assert (N2 : find cand_photo_preview l = None).
    { apply find_NoMatch, NoMatch_photo; [|exact Hnp].
      intros x Hx. unfold cand_photo_preview in Hx. apply andb_prop in Hx. tauto. }
    destruct (find_some_cand cand_video_preview l v Hin) as (v' & F & Hin' & Hc).
    { unfold cand_video_preview. rewrite Hv, Hp. reflexivity. }
    unfold cand_video_preview in Hc. apply andb_prop in Hc as [Hv' Hp'].
    exists v'. rewrite selectImageUrl_cascade, N1, N2, F. auto.
Qed.

Lemma C1_witness :
  selectImageUrl (Some [ex_photo]) = Some "https://pbs.twimg.com/a.jpg" /\
  selectImageUrl (Some [ex_video]) = Some "https://pbs.twimg.com/v_thumb.jpg" /\
  (exists m', In m' [ex_photo] /\ is_photo m' = true /\ truthy (url m') = true /\
              selectImageUrl (Some [ex_photo]) = url m') /\
  (exists v', In v' [ex_video] /\ is_video v' = true /\
              selectImageUrl (Some [ex_video]) = preview_image_url v' /\
              truthy (selectImageUrl (Some [ex_video])) = true).
Proof.
  destruct C1_selectImageUrl_precedence as [_ [H2 H3]].
  split; [reflexivity|]. split; [reflexivity|]. split.
  - apply (H2 [ex_photo] ex_photo); simpl; auto.
  - apply (H3 [ex_video] ex_video); simpl; auto.
    intros x [<-|[]]. reflexivity.
Defined.

Lemma startsWith_spec (s k : string) : startsWith s k = true <-> exists suf, s = k ++ suf.
Proof.
  revert s. induction k as [|c k IH]; intros s; simpl.
  - split; intros _; [exists s; reflexivity | destruct s; reflexivity].
  - destruct s as [|c' s]; simpl.
    + split; [discriminate|]. intros [suf H]. discriminate.
    + rewrite andb_true_iff, IH. split.
      * intros [Hc [suf ->]]. apply Ascii.eqb_eq in Hc. subst. eauto.
      * intros [suf H]. injection H as -> ->. split; [apply Ascii.eqb_refl | eauto].
Qed.

Lemma str_includes_spec (s k : string) :
  str_includes s k = true <-> exists pre suf, s = pre ++ k ++ suf.
Proof.
  induction s as [|c s IH].
  - change (str_includes EmptyString k) with (startsWith EmptyString k). rewrite startsWith_spec. split.
    + intros [suf H]. exists EmptyString, suf. exact H.
    + intros [pre [suf H]]. destruct pre; [exists suf; exact H | discriminate].
  - change (str_includes (String c s) k) with (startsWith (String c s) k || str_includes s k).
    rewrite orb_true_iff, startsWith_spec, IH. split.
    + intros [[suf H] | [pre [suf H]]].
      * exists EmptyString, suf. exact H.
      * exists (String c pre), suf. rewrite H. reflexivity.
    + intros [pre [suf H]]. destruct pre as [|c' pre]; simpl in H.
      * left. exists suf. exact H.
      * injection H as -> H. right. eauto.
Qed.

Lemma append_empty_r (s : string) : s ++ EmptyString = s.
Proof. induction s as [|c s IH]; simpl; [reflexivity | rewrite IH; reflexivity]. Qed.

Lemma append_assoc (a b c : string) : a ++ b ++ c = (a ++ b) ++ c.
Proof. induction a as [|x a IH]; simpl; [reflexivity | rewrite IH; reflexivity]. Qed.

Lemma str_includes_app_r (a b : string) : str_includes (a ++ b) b = true.
Proof. apply str_includes_spec. exists a, EmptyString. rewrite append_empty_r. reflexivity. Qed.

(** C4: a lookup response with a non-empty [errors] array makes the
    resolver fail (it throws); the failure message is built from the first
    entry's detail, or its title when the detail is absent or empty, and
    contains the first entry's detail. *)
Theorem C4_errors_fail (tweetId : string) (resp : TweetResp) (e0 : ApiError) (es : list ApiError) :
  errors resp = Some (e0 :: es) ->
  snd (fetchTweetData tweetId (inr resp)) =
    inl ("Failed to process tweet " ++ tweetId ++ ": Failed to fetch tweet: "
         ++ render (if truthy (detail e0) then detail e0 else title e0)) /\
  (forall d, detail e0 = Some d ->
     exists msg, snd (fetchTweetData tweetId (inr resp)) = inl msg /\ str_includes msg d = true).
Proof.
  intros He. unfold fetchTweetData. rewrite He. cbn [snd]. split; [reflexivity|].
  intros d Hd. eexists. split; [reflexivity|]. apply str_includes_spec.
  unfold js_or. rewrite Hd. destruct (truthy (Some d)) eqn:T.
  - exists ("Failed to process tweet " ++ tweetId ++ ": " ++ "Failed to fetch tweet: "), EmptyString.
    cbn [render]. rewrite append_empty_r, !append_assoc. reflexivity.
  - apply Bool.not_true_iff_false in T. rewrite truthy_some in T.
    destruct (string_dec d EmptyString); [subst | contradiction].
    exists EmptyString, ("Failed to process tweet " ++ tweetId ++ ": " ++ "Failed to fetch tweet: "
                 ++ render (title e0)).
    reflexivity.
Qed.

Lemma C4_witness :
  snd (fetchTweetData "1" (inr ex_error_resp)) =
    inl ("Failed to process tweet 1: Failed to fetch tweet: Could not find tweet with id: [1].") /\
  exists msg, snd (fetchTweetData "1" (inr ex_error_resp)) = inl msg /\
              str_includes msg "Could not find tweet with id: [1]." = true.
Proof.
  destruct (C4_errors_fail "1" ex_error_resp _ [] eq_refl) as [H1 H2].
  split; [exact H1 | apply H2; reflexivity].
Defined.

(** C5: when the lookup response has no errors and carries tweet data but
    its media list is absent, empty, or holds no photo/video candidate, the
    resolver returns normally with [imageUrl] undefined and logs a
    warning. *)
Theorem C5_no_image_returns (tweetId : string) (resp : TweetResp) (d : TweetData) :
  no_errors resp -> data resp = Some d ->
  (ochain media (includes resp) = None \/ ochain media (includes resp) = Some [] \/
   exists l, ochain media (includes resp) = Some l /\ NoMatch cand_photo_url l /\
             NoMatch cand_photo_preview l /\ NoMatch cand_video_preview l) ->
  fetchTweetData tweetId (inr resp) =
    ([LInfo ("Fetching tweet from Twitter API: " ++ tweetId);
      LWarn ("Tweet " ++ tweetId ++
             " does not appear to contain a usable image URL (photo or video thumbnail).")],
     inr (mkResolved None (text d))).
Proof.
  intros Herr Hd Hm.
  assert (Hsel : selectImageUrl (ochain media (includes resp)) = None).
  { destruct Hm as [-> | [-> | (l & -> & N1 & N2 & N3)]]; [reflexivity | reflexivity |].
    rewrite selectImageUrl_cascade.
    apply find_NoMatch in N1, N2, N3. rewrite N1, N2, N3. reflexivity. }
  unfold fetchTweetData.
  destruct Herr as [He | He]; rewrite He, Hd, Hsel; reflexivity.
Qed.

Lemma C5_witness :
  fetchTweetData "7" (inr ex_gif_resp) =
    ([LInfo ("Fetching tweet from Twitter API: " ++ "7");
      LWarn ("Tweet " ++ "7" ++
             " does not appear to contain a usable image URL (photo or video thumbnail).")],
     inr (mkResolved None (Some "gm"))).
Proof.
  apply (C5_no_image_returns "7" ex_gif_resp (mkTweetData (Some "gm"))).
  - left. reflexivity.
  - reflexivity.
  - right. right. eexists. split; [reflexivity|].
    split; [|split]; intros x [<-|[]]; reflexivity.
Defined.

(** Where a selected URL comes from. *)
Lemma selectImageUrl_source (o : option (list Media)) (u : string) :
  selectImageUrl o = Some u ->
  u <> EmptyString /\
  exists l m, o = Some l /\ In m l /\
    ((is_photo m = true /\ url m = Some u) \/
     (is_photo m = true /\ preview_image_url m = Some u) \/
     (is_video m = true /\ preview_image_url m = Some u)).
Proof.
  destruct o as [l|]; [|discriminate]. rewrite selectImageUrl_cascade. intros Hu.
  destruct (find cand_photo_url l) as [m|] eqn:F1.
  { apply find_some in F1 as [Hin Hc]. unfold cand_photo_url in Hc.
    apply andb_prop in Hc as [Hp Ht]. rewrite Hu in Ht.
    split; [apply truthy_some; exact Ht | exists l, m; split; [reflexivity | split; [exact Hin | tauto]]]. }
  destruct (find cand_photo_preview l) as [m|] eqn:F2.
  { apply find_some in F2 as [Hin Hc]. unfold cand_photo_preview in Hc.
    apply andb_prop in Hc as [Hp Ht]. rewrite Hu in Ht.
    split; [apply truthy_some; exact Ht | exists l, m; split; [reflexivity | split; [exact Hin | tauto]]]. }
  destruct (find cand_video_preview l) as [m|] eqn:F3; [|discriminate].
  apply find_some in F3 as [Hin Hc]. unfold cand_video_preview in Hc.
  apply andb_prop in Hc as [Hp Ht]. rewrite Hu in Ht.
  split; [apply truthy_some; exact Ht | exists l, m; split; [reflexivity | split; [exact Hin | tauto]]].
Qed.

(** The resolved value of [fetchTweetData] carries the selection of the
    response's media list. *)
Lemma fetchTweetData_inr (tweetId : string) (api : string + TweetResp)
  (logs : list Log) (res : Resolved) :
  fetchTweetData tweetId api = (logs, inr res) ->
  exists resp d, api = inr resp /\ no_errors resp /\ data resp = Some d /\
    res = mkResolved (selectImageUrl (ochain media (includes resp))) (text d).
Proof.
  unfold fetchTweetData, no_errors. intros Hf.
  destruct api as [e|resp]; [discriminate|].
  destruct (errors resp) as [[|e0 es]|] eqn:He; [| discriminate |];
    (destruct (data resp) as [d|] eqn:Hd; [|discriminate]);
    injection Hf as _ <-; exists resp, d; repeat split; auto.
Qed.

(** C6: whenever the resolver returns an [imageUrl], it is a non-empty
    string equal to a photo's direct url, a photo's preview_image_url or a
    video's preview_image_url of an attachment of the returned media list. *)
Theorem C6_imageUrl_from_media (tweetId : string) (api : string + TweetResp)
  (logs : list Log) (res : Resolved) (u : string) :
  fetchTweetData tweetId api = (logs, inr res) -> imageUrl res = Some u ->
  u <> EmptyString /\
  exists resp l m, api = inr resp /\ ochain media (includes resp) = Some l /\ In m l /\
    ((is_photo m = true /\ url m = Some u) \/
     (is_photo m = true /\ preview_image_url m = Some u) \/
     (is_video m = true /\ preview_image_url m = Some u)).
Proof.
  intros Hf Hu. apply fetchTweetData_inr in Hf as (resp & d & -> & _ & _ & ->).
  simpl in Hu. apply selectImageUrl_source in Hu as [Hne (l & m & Hl & Hin & Hcase)].
  split; [exact Hne | exists resp, l, m; auto].
Qed.

Lemma C6_witness :
  fetchTweetData "9" (inr ex_photo_resp) =
    ([LInfo ("Fetching tweet from Twitter API: " ++ "9")],
     inr (mkResolved (Some "https://pbs.twimg.com/a.jpg") (Some "hat"))) /\
  ("https://pbs.twimg.com/a.jpg" <> EmptyString /\
   exists resp l m, inr ex_photo_resp = @inr string TweetResp resp /\
     ochain media (includes resp) = Some l /\ In m l /\
    ((is_photo m = true /\ url m = Some "https://pbs.twimg.com/a.jpg") \/
     (is_photo m = true /\ preview_image_url m = Some "https://pbs.twimg.com/a.jpg") \/
     (is_video m = true /\ preview_image_url m = Some "https://pbs.twimg.com/a.jpg"))).
Proof.
  split; [reflexivity|].
  apply (C6_imageUrl_from_media "9" (inr ex_photo_resp)
           [LInfo ("Fetching tweet from Twitter API: " ++ "9")]
           (mkResolved (Some "https://pbs.twimg.com/a.jpg") (Some "hat"))); reflexivity.
Defined.

(* ------------------------------------------------------------------ *)
(** ** Claims about the schema-validated verifier *)

(** C7: for every candidate URL the verifier sends exactly one request:
    a system message with the detection task, then a user message whose
    parts are the output-format instruction, the three reference image URLs
    and, last, the candidate URL; the temperature is 0. *)
Theorem C7_request_shape (imageUrl : string) (api : ChatRequest -> string + ChatResp) :
  exists req logs res,
    askOpenAIAboutImage imageUrl api = ([req], logs, res) /\
    temperature req = 0 /\
    response_format req = verificationResponseFormat /\
    exists r1 r2 r3,
      referenceImageUrls = [r1; r2; r3] /\
      messages req =
        [ mkChatMessage "system" (CString systemPrompt);
          mkChatMessage "user"
            (CParts [PText userPrompt; PImageUrl r1; PImageUrl r2; PImageUrl r3; PImageUrl imageUrl]) ] /\
      str_includes systemPrompt "determine if they contain a black baseball hat" = true /\
      str_includes userPrompt "return your answer in this exact JSON format" = true.
Proof.
  unfold askOpenAIAboutImage.
  destruct (api (buildRequest imageUrl)) as [e|r];
    (eexists; eexists; eexists; split; [reflexivity|]);
    (split; [reflexivity|]); (split; [reflexivity|]);
    exists (nth 0 referenceImageUrls EmptyString), (nth 1 referenceImageUrls EmptyString),
           (nth 2 referenceImageUrls EmptyString);
    (split; [reflexivity|]); (split; [reflexivity|]); split; vm_compute; reflexivity.
Qed.

(** C8: when the inference call succeeds and its first choice carries a
    parsed object of the schema {result: boolean, reasoning: string}, the
    verifier returns that object unchanged. *)
Theorem C8_returns_parsed (imageUrl : string) (api : ChatRequest -> string + ChatResp)
  (c : Choice) (cs : list Choice) (m : ParsedMessage) (v : VerificationResult) :
  api (buildRequest imageUrl) = inr (mkChatResp (c :: cs)) ->
  message c = Some m -> parsed m = Some v ->
  snd (askOpenAIAboutImage imageUrl api) = inr (Some v).
Proof.
  intros Hapi Hc Hm. unfold askOpenAIAboutImage. rewrite Hapi. simpl. rewrite Hc. simpl.
  rewrite Hm. reflexivity.
Qed.

Lemma C8_witness :
  snd (askOpenAIAboutImage "https://pbs.twimg.com/a.jpg" ex_openai) =
    inr (Some (mkVerificationResult true "hat visible on subject's head")).
Proof.
  apply (C8_returns_parsed "https://pbs.twimg.com/a.jpg" ex_openai
           (mkChoice (Some (mkParsedMessage (Some ex_verdict)))) []
           (mkParsedMessage (Some ex_verdict)) ex_verdict); reflexivity.
Defined.

(** C10: when the inference call succeeds but the response has no choice,
    or its first choice no message, or the message no parsed content, the
    verifier returns [undefined] and raises no error. *)
Theorem C10_absent_parsed (imageUrl : string) (api : ChatRequest -> string + ChatResp)
  (r : ChatResp) :
  api (buildRequest imageUrl) = inr r ->
  (choices r = [] \/
   exists c cs, choices r = c :: cs /\
     (message c = None \/ exists m, message c = Some m /\ parsed m = None)) ->
  snd (askOpenAIAboutImage imageUrl api) = inr None.
Proof.
  intros Hapi Hr. unfold askOpenAIAboutImage. rewrite Hapi. simpl.
  destruct Hr as [-> | (c & cs & -> & [Hc | (m & Hc & Hm)])]; simpl; [reflexivity | |];
    rewrite Hc; simpl; [reflexivity | rewrite Hm; reflexivity].
Qed.

Lemma C10_witness :
  snd (askOpenAIAboutImage "https://pbs.twimg.com/a.jpg" ex_openai_empty) = inr None.
Proof.
  apply (C10_absent_parsed "https://pbs.twimg.com/a.jpg" ex_openai_empty (mkChatResp [])).
  - reflexivity.
  - left. reflexivity.
Defined.

(* ------------------------------------------------------------------ *)
(** ** Claims about the free-text verifier *)

Lemma str_includes_trans (s u k : string) :
  str_includes s u = true -> str_includes u k = true -> str_includes s k = true.
Proof.
  rewrite !str_includes_spec. intros (p1 & s1 & ->) (p2 & s2 & ->).
  exists (p1 ++ p2), (s2 ++ s1). rewrite <- !append_assoc. reflexivity.
Qed.




Lemma some_includes_iff (s : string) (ks : list string) :
  some (fun keyword => str_includes s keyword) ks = true <-> exists k, In k ks /\ Contains s k.
Proof.
  unfold some, Contains. rewrite existsb_exists. split.
  - intros [k [Hk H]]. exists k. split; [exact Hk | apply str_includes_spec; exact H].
  - intros [k [Hk H]]. exists k. split; [exact Hk | apply str_includes_spec; exact H].
Qed.

(** C3 (as the code does it): keywords are matched as substrings of the
    lower-cased response and the positive list is tried first. A response
    containing a positive keyword, and not containing "it does not", gets
    [true], even when it also contains another negative keyword; a response
    with no positive keyword and a negative one gets [false]; one with
    neither gets the ambiguous, assume-false outcome. A non-empty response
    reaching [main] is judged this way. *)
Theorem C3_keyword_verdict_positive_first :
  (forall r, (exists k, In k FreeText.positiveKeywords /\ Contains (toLowerCase r) k) ->
     ~ Contains (toLowerCase r) "it does not" ->
     FreeText.keywordVerdict r = FreeText.Decided true) /\
  (forall r, ~ (exists k, In k FreeText.positiveKeywords /\ Contains (toLowerCase r) k) ->
     (exists k, In k FreeText.negativeKeywords /\ Contains (toLowerCase r) k) ->
     FreeText.keywordVerdict r = FreeText.Decided false) /\
  (forall r, ~ (exists k, In k FreeText.positiveKeywords /\ Contains (toLowerCase r) k) ->
     ~ (exists k, In k FreeText.negativeKeywords /\ Contains (toLowerCase r) k) ->
     FreeText.keywordVerdict r = FreeText.AmbiguousAssumeFalse) /\
  (forall twitter openai res r,
     snd (fetchTweetData FreeText.TWEET_ID twitter) = inr res ->
     truthy (imageUrl res) = true ->
     snd (FreeText.askOpenAIAboutImage (render (imageUrl res)) FreeText.question openai) = inr (Some r) ->
     r <> EmptyString ->
     fst (FreeText.main_free twitter openai) = FreeText.keywordVerdict r).
Proof.
  unfold FreeText.keywordVerdict.
  split; [|split; [|split]].
  - intros r Hp _. apply some_includes_iff in Hp. rewrite Hp. reflexivity.
  - intros r Hp Hn. rewrite <- some_includes_iff in Hp, Hn.
    apply Bool.not_true_iff_false in Hp. rewrite Hp, Hn. reflexivity.
  - intros r Hp Hn. rewrite <- some_includes_iff in Hp, Hn.
    apply Bool.not_true_iff_false in Hp, Hn. rewrite Hp, Hn. reflexivity.
  - intros twitter openai res r Hf Ht Ha Hr. unfold FreeText.main_free.
    rewrite Hf, Ht. simpl negb. cbv iota. rewrite Ha.
    assert (Hr' : truthy (Some r) = true) by (apply truthy_some; exact Hr).
    rewrite Hr'. reflexivity.
Qed.

Lemma C3_witness :
  FreeText.keywordVerdict "Yes." = FreeText.Decided true /\
  FreeText.keywordVerdict "No." = FreeText.Decided false /\
  FreeText.keywordVerdict "Maybe." = FreeText.AmbiguousAssumeFalse.
Proof.
  destruct C3_keyword_verdict_positive_first as (H1 & H2 & H3 & _).
  split; [|split].
  - apply H1.
    + exists "yes". split; [left; reflexivity|]. exists EmptyString, ".". reflexivity.
    + intros Hc. apply (proj2 (str_includes_spec _ _)) in Hc. vm_compute in Hc. discriminate.
  - apply H2.
    + intros Hc. apply (proj2 (some_includes_iff _ _)) in Hc. vm_compute in Hc. discriminate.
    + exists "no". split; [left; reflexivity|]. exists EmptyString, ".". reflexivity.
  - apply H3; intros Hc; apply (proj2 (some_includes_iff _ _)) in Hc; vm_compute in Hc; discriminate.
Defined.

(** C3 as stated fails: a response containing the negative keyword "no"
    gets the verdict [true] when it also contains "yes". *)
Lemma C3_counterexample :
  Contains (toLowerCase "Yes, there is no doubt.") "no" /\
  FreeText.keywordVerdict "Yes, there is no doubt." = FreeText.Decided true /\
  FreeText.keywordVerdict "Yes, there is no doubt." <> FreeText.Decided false.
Proof.
  split; [|split].
  - exists "yes, there is ", " doubt.". reflexivity.
  - vm_compute. reflexivity.
  - vm_compute. discriminate.
Qed.

(* ------------------------------------------------------------------ *)
(** ** Process exit codes *)

Lemma main_free_fulfilled (twitter : string + TweetResp) (openai : FreeText.Request -> string + FreeText.Resp) :
  snd (FreeText.main_free twitter openai) = Fulfilled.
Proof.
  unfold FreeText.main_free.
  destruct (snd (fetchTweetData FreeText.TWEET_ID twitter)) as [msg|res]; [reflexivity|].
  destruct (negb (truthy (imageUrl res))); [reflexivity|].
  destruct (snd (FreeText.askOpenAIAboutImage _ _ _)) as [msg|o]; [reflexivity|].
  destruct (truthy o); reflexivity.
Qed.

(** C2 (as the code does it). Both variants exit with 1 when a credential
    is missing. Once configured, the schema-validated variant exits with 1
    when the tweet is not resolved, when no image URL is found, or when the
    inference call throws, and with 0 otherwise. The free-text variant
    catches every error in [main], prints a [false] result and exits with 0
    in every case, the ambiguous verdict included. *)
Theorem C2_exit_codes :
  (forall env tw oa oa',
     ~ configured env -> run_schema env tw oa = 1 /\ FreeText.run_free env tw oa' = 1) /\
  (forall env tw oa msg, configured env ->
     snd (fetchTweetData TWEET_ID tw) = inl msg -> run_schema env tw oa = 1) /\
  (forall env tw oa res, configured env ->
     snd (fetchTweetData TWEET_ID tw) = inr res -> truthy (imageUrl res) = false ->
     run_schema env tw oa = 1) /\
  (forall env tw oa res u msg, configured env ->
     snd (fetchTweetData TWEET_ID tw) = inr res -> imageUrl res = Some u -> u <> EmptyString ->
     snd (askOpenAIAboutImage u oa) = inl msg -> run_schema env tw oa = 1) /\
  (forall env tw oa res u v, configured env ->
     snd (fetchTweetData TWEET_ID tw) = inr res -> imageUrl res = Some u -> u <> EmptyString ->
     snd (askOpenAIAboutImage u oa) = inr v -> run_schema env tw oa = 0) /\
  (forall env tw oa', configured env -> FreeText.run_free env tw oa' = 0).
Proof.
  unfold configured, run_schema, FreeText.run_free.
  split; [|split; [|split; [|split; [|split]]]].
  - intros env tw oa oa' Hc.
    destruct (truthy (OPENAI_API_KEY env)), (truthy (TWITTER_BEARER_TOKEN env));
      simpl; try (split; reflexivity). exfalso. apply Hc. split; reflexivity.
  - intros env tw oa msg [-> ->] Hf. simpl negb. cbv iota. unfold main_schema.
    destruct (fetchTweetData TWEET_ID tw) as [l1 r]. simpl in Hf. subst r. reflexivity.
  - intros env tw oa res [-> ->] Hf Hi. simpl negb. cbv iota. unfold main_schema.
    destruct (fetchTweetData TWEET_ID tw) as [l1 r]. simpl in Hf. subst r.
    destruct (imageUrl res) as [u|]; [rewrite Hi|]; reflexivity.
  - intros env tw oa res u msg [-> ->] Hf Hi Hu Ha. simpl negb. cbv iota. unfold main_schema.
    destruct (fetchTweetData TWEET_ID tw) as [l1 r]. simpl in Hf. subst r.
    rewrite Hi. apply String.eqb_neq in Hu. simpl truthy. rewrite Hu. simpl negb. cbv iota.
    destruct (askOpenAIAboutImage u oa) as [[reqs l3] r3]. simpl in Ha. subst r3. reflexivity.
  - intros env tw oa res u v [-> ->] Hf Hi Hu Ha. simpl negb. cbv iota. unfold main_schema.
    destruct (fetchTweetData TWEET_ID tw) as [l1 r]. simpl in Hf. subst r.
    rewrite Hi. apply String.eqb_neq in Hu. simpl truthy. rewrite Hu. simpl negb. cbv iota.
    destruct (askOpenAIAboutImage u oa) as [[reqs l3] r3]. simpl in Ha. subst r3. reflexivity.
  - intros env tw oa' [-> ->]. simpl negb. cbv iota. rewrite main_free_fulfilled. reflexivity.
Qed.

Lemma C2_witness :
  run_schema ex_env_no_token (inr ex_error_resp) ex_openai = 1 /\
  run_schema ex_env (inr ex_error_resp) ex_openai = 1 /\
  run_schema ex_env (inr ex_gif_resp) ex_openai = 1 /\
  run_schema ex_env (inr ex_photo_resp) (fun _ => inl "429 Too Many Requests") = 1 /\
  run_schema ex_env (inr ex_photo_resp) ex_openai = 0 /\
  FreeText.run_free ex_env (inr ex_photo_resp) ex_free_openai = 0.
Proof.
  destruct C2_exit_codes as (H1 & H2 & H3 & H4 & H5 & H6).
  assert (Hc : configured ex_env) by (split; reflexivity).
  split; [|split; [|split; [|split; [|split]]]].
  - apply (H1 ex_env_no_token (inr ex_error_resp) ex_openai ex_free_openai).
    intros [_ H]. discriminate.
  - eapply H2; [exact Hc | reflexivity].
  - eapply H3; [exact Hc | reflexivity | reflexivity].
  - eapply H4; [exact Hc | reflexivity | reflexivity | discriminate | reflexivity].
  - eapply H5; [exact Hc | reflexivity | reflexivity | discriminate | reflexivity].
  - apply H6. exact Hc.
Defined.

(** C2 as stated fails: in the free-text variant, a configured run whose
    tweet lookup reports an error (the tweet is not resolved) exits with 0,
    not 1. *)
Lemma C2_counterexample :
  (exists msg, snd (fetchTweetData FreeText.TWEET_ID (inr ex_error_resp)) = inl msg) /\
  FreeText.run_free ex_env (inr ex_error_resp) ex_free_openai = 0 /\
  FreeText.run_free ex_env (inr ex_error_resp) ex_free_openai <> 1.
Proof.
  split; [eexists; reflexivity|]. split; [reflexivity | discriminate].
Qed.

(* ------------------------------------------------------------------ *)
(** ** Further properties of the resolver *)

Lemma find_filter_irrelevant (p q : Media -> bool) (l : list Media) :
  (forall x, p x = true -> q x = true) -> find p (filter q l) = find p l.
Proof.
  intros Hpq. induction l as [|x l IH]; simpl; [reflexivity|].
  destruct (q x) eqn:Qx; simpl.
  - destruct (p x); [reflexivity | exact IH].
  - destruct (p x) eqn:Px; [rewrite (Hpq x Px) in Qx; discriminate | exact IH].
Qed.

Lemma find_app_hit (p : Media -> bool) (l l' : list Media) (m : Media) :
  find p l = Some m -> find p (l ++ l')%list = Some m.
Proof.
  induction l as [|x l IH]; simpl; [discriminate|].
  destruct (p x); [tauto | exact IH].
Qed.

(** X1: the selection only looks at photos and videos: dropping every
    other attachment (animated GIFs, unknown types) does not change the
    chosen URL. *)
Theorem X1_select_ignores_other_types (l : list Media) :
  selectImageUrl (Some (filter (fun m => is_photo m || is_video m) l)) = selectImageUrl (Some l).
Proof.
  rewrite !selectImageUrl_cascade.
  rewrite !(find_filter_irrelevant _ (fun m => is_photo m || is_video m));
    [reflexivity | ..]; intros x Hx;
    [ unfold cand_video_preview in Hx | unfold cand_photo_preview in Hx | unfold cand_photo_url in Hx ];
    apply andb_prop in Hx as [Hx _]; rewrite Hx; [apply orb_true_r | reflexivity | reflexivity].
Qed.

(** X2: once a media list holds a photo with a non-empty direct url,
    attachments appended after it never change the chosen URL. *)
Theorem X2_select_stable_under_append (l l' : list Media) (m : Media) :
  In m l -> is_photo m = true -> truthy (url m) = true ->
  selectImageUrl (Some (l ++ l')%list) = selectImageUrl (Some l).
Proof.
  intros Hin Hp Hu.
  destruct (find_some_cand cand_photo_url l m Hin) as (m' & F & _).
  { unfold cand_photo_url. rewrite Hp, Hu. reflexivity. }
  rewrite !selectImageUrl_cascade, F, (find_app_hit _ _ _ _ F). reflexivity.
Qed.

Lemma X2_witness :
  selectImageUrl (Some ([ex_photo] ++ [ex_video])%list) = selectImageUrl (Some [ex_photo]).
Proof.
  apply (X2_select_stable_under_append [ex_photo] [ex_video] ex_photo); simpl; auto.
Defined.

(** X3: the resolver succeeds exactly when the lookup call resolves with
    no (or an empty) errors array and with tweet data; its value is then the
    selected URL with the tweet's text. A rejected call fails with the
    rejection message behind the [Failed to process tweet <id>: ] prefix,
    and missing tweet data fails with [Tweet data not found in API response.]. *)
Theorem X3_fetch_outcomes (tweetId : string) :
  (forall api res, snd (fetchTweetData tweetId api) = inr res <->
     exists resp d, api = inr resp /\ no_errors resp /\ data resp = Some d /\
       res = mkResolved (selectImageUrl (ochain media (includes resp))) (text d)) /\
  (forall e, snd (fetchTweetData tweetId (inl e)) =
     inl ("Failed to process tweet " ++ tweetId ++ ": " ++ e)) /\
  (forall resp, no_errors resp -> data resp = None ->
     snd (fetchTweetData tweetId (inr resp)) =
       inl ("Failed to process tweet " ++ tweetId ++ ": Tweet data not found in API response.")).
Proof.
  split; [|split].
  - intros api res. split.
    + intros H. destruct (fetchTweetData tweetId api) as [logs r] eqn:Hf. simpl in H. subst r.
      exact (fetchTweetData_inr tweetId api logs res Hf).
    + intros (resp & d & -> & Hn & Hd & ->). unfold fetchTweetData.
      destruct Hn as [He | He]; rewrite He, Hd; reflexivity.
  - intros e. reflexivity.
  - intros resp Hn Hd. unfold fetchTweetData.
    destruct Hn as [He | He]; rewrite He, Hd; reflexivity.
Qed.

Lemma X3_witness :
  snd (fetchTweetData "7" (inr ex_gif_resp)) = inr (mkResolved None (Some "gm")) /\
  snd (fetchTweetData "7" (inr (mkTweetResp (Some []) None None))) =
    inl ("Failed to process tweet " ++ "7" ++ ": Tweet data not found in API response.").
Proof.
  destruct (X3_fetch_outcomes "7") as (H1 & _ & H3). split.
  - apply H1. exists ex_gif_resp, (mkTweetData (Some "gm")).
    split; [reflexivity|]. split; [left; reflexivity|]. split; reflexivity.
  - apply H3; [right; reflexivity | reflexivity].
Defined.

(** X4: the resolver logs a warning exactly when it returns successfully
    without an image URL; a failing lookup logs errors, never the warning. *)
Theorem X4_warning_iff_no_image (tweetId : string) (api : string + TweetResp)
  (logs : list Log) (r : string + Resolved) :
  fetchTweetData tweetId api = (logs, r) ->
  ((exists w, In (LWarn w) logs) <-> exists res, r = inr res /\ imageUrl res = None).
Proof.
  unfold fetchTweetData. intros Hf.
  destruct api as [e|resp].
  { injection Hf as <- <-. simpl. split.
    - intros (w & [H|[H|[]]]); discriminate.
    - intros (res & H & _). discriminate. }
  destruct (errors resp) as [[|e0 es]|].
  2: { injection Hf as <- <-. simpl. split.
       - intros (w & [H|[H|[H|[]]]]); discriminate.
       - intros (res & H & _). discriminate. }
  all: destruct (data resp) as [d|];
    [| injection Hf as <- <-; simpl; split;
       [intros (w & [H|[H|[]]]); discriminate | intros (res & H & _); discriminate]].
  all: injection Hf as <- <-;
    destruct (selectImageUrl (ochain media (includes resp))) as [u|] eqn:Hs.
  all: try (simpl; split; [intros _; eexists; split; reflexivity | intros _; eexists; right; left; reflexivity]).
  all: apply selectImageUrl_source in Hs as [Hne _];
    assert (Ht : truthy (Some u) = true) by (apply truthy_some; exact Hne);
    rewrite Ht; simpl; split;
    [intros (w & [H|[]]); discriminate | intros (res & H & Hi); injection H as <-; discriminate].
Qed.

Lemma X4_witness :
  (exists w, In (LWarn w) (fst (fetchTweetData "7" (inr ex_gif_resp)))) /\
  ~ (exists w, In (LWarn w) (fst (fetchTweetData "9" (inr ex_photo_resp)))).
Proof.
  split.
  - apply (X4_warning_iff_no_image "7" (inr ex_gif_resp) _ _ eq_refl).
    eexists. split; reflexivity.
  - rewrite (X4_warning_iff_no_image "9" (inr ex_photo_resp) _ _ eq_refl).
    intros (res & H & Hi). injection H as <-. discriminate.
Defined.

(* ------------------------------------------------------------------ *)
(** ** Further properties of the verifiers and of [main] *)

(** X5: the schema-validated verifier never makes up a verdict: a
    returned object is the parsed content of the first choice of the
    response to its request; when the inference call throws, it throws in
    turn with the [Failed to get response from OpenAI about the image. ]
    prefix. *)
Theorem X5_verdict_from_response (imageUrl : string) (api : ChatRequest -> string + ChatResp) :
  (forall v, snd (askOpenAIAboutImage imageUrl api) = inr (Some v) ->
     exists c cs m, api (buildRequest imageUrl) = inr (mkChatResp (c :: cs)) /\
                    message c = Some m /\ parsed m = Some v) /\
  (forall e, api (buildRequest imageUrl) = inl e ->
     snd (askOpenAIAboutImage imageUrl api) =
       inl ("Failed to get response from OpenAI about the image. " ++ e)).
Proof.
  unfold askOpenAIAboutImage. split.
  - intros v. destruct (api (buildRequest imageUrl)) as [e|[cs]]; simpl; [discriminate|].
    destruct cs as [|c cs]; simpl; [discriminate|].
    destruct (message c) as [m|] eqn:Hc; simpl; [|discriminate].
    intros [= Hm]. exists c, cs, m. auto.
  - intros e He. rewrite He. reflexivity.
Qed.

Lemma X5_witness :
  (exists c cs m, ex_openai (buildRequest "https://pbs.twimg.com/a.jpg") = inr (mkChatResp (c :: cs)) /\
                  message c = Some m /\ parsed m = Some ex_verdict) /\
  snd (askOpenAIAboutImage "https://pbs.twimg.com/a.jpg" ex_openai_down) =
    inl ("Failed to get response from OpenAI about the image. " ++ "Connection error.").
Proof.
  split.
  - apply (X5_verdict_from_response "https://pbs.twimg.com/a.jpg" ex_openai). reflexivity.
  - apply (X5_verdict_from_response "https://pbs.twimg.com/a.jpg" ex_openai_down). reflexivity.
Defined.

(** X6: both [main] functions consult the inference API only after an
    image URL was found: when the tweet lookup fails or yields no usable
    image URL, what [main] does is the same whatever the inference API
    would answer. *)
Theorem X6_no_inference_without_image (tw : string + TweetResp) :
  ((exists msg, snd (fetchTweetData TWEET_ID tw) = inl msg) \/
   (exists res, snd (fetchTweetData TWEET_ID tw) = inr res /\ truthy (imageUrl res) = false) ->
   forall oa1 oa2, main_schema tw oa1 = main_schema tw oa2) /\
  ((exists msg, snd (fetchTweetData FreeText.TWEET_ID tw) = inl msg) \/
   (exists res, snd (fetchTweetData FreeText.TWEET_ID tw) = inr res /\ truthy (imageUrl res) = false) ->
   forall oa1 oa2, FreeText.main_free tw oa1 = FreeText.main_free tw oa2).
Proof.
  split.
  - intros H oa1 oa2. unfold main_schema.
    destruct (fetchTweetData TWEET_ID tw) as [l1 r]. simpl in H.
    destruct H as [(msg & ->) | (res & -> & Hi)]; [reflexivity|].
    destruct (imageUrl res) as [u|]; [rewrite Hi|]; reflexivity.
  - intros H oa1 oa2. unfold FreeText.main_free.
    destruct H as [(msg & ->) | (res & -> & Hi)]; [reflexivity|].
    rewrite Hi. reflexivity.
Qed.

Lemma X6_witness :
  main_schema (inr ex_gif_resp) ex_openai = main_schema (inr ex_gif_resp) ex_openai_down /\
  FreeText.main_free (inr ex_error_resp) ex_free_openai =
    FreeText.main_free (inr ex_error_resp) (fun _ => inl "Connection error.").
Proof.
  destruct (X6_no_inference_without_image (inr ex_gif_resp)) as [H1 _].
  destruct (X6_no_inference_without_image (inr ex_error_resp)) as [_ H2].
  split.
  - apply H1. right. eexists. split; reflexivity.
  - apply H2. left. eexists. reflexivity.
Defined.

Lemma negativeKeywords_collapse (s : string) :
  some (fun keyword => str_includes s keyword) FreeText.negativeKeywords = str_includes s "no".
Proof.
  unfold some, FreeText.negativeKeywords. simpl existsb.
  destruct (str_includes s "no") eqn:E; [reflexivity|]. simpl.
  destruct (str_includes s "it does not") eqn:E1.
  { rewrite (str_includes_trans s _ "no" E1) in E; [discriminate | vm_compute; reflexivity]. }
  destruct (str_includes s "does not show") eqn:E2; [|reflexivity].
  rewrite (str_includes_trans s _ "no" E2) in E; [discriminate | vm_compute; reflexivity].
Qed.

(** X7: the negative keyword list acts as the single keyword "no" (the
    other two contain "no"), and a response containing "it does not" is
    judged [true], since it contains the positive keyword "it does". *)
Theorem X7_negative_keywords_reduce_to_no :
  (forall r, FreeText.keywordVerdict r =
     if some (fun keyword => str_includes (toLowerCase r) keyword) FreeText.positiveKeywords
     then FreeText.Decided true
     else if str_includes (toLowerCase r) "no" then FreeText.Decided false
     else FreeText.AmbiguousAssumeFalse) /\
  (forall r, Contains (toLowerCase r) "it does not" -> FreeText.keywordVerdict r = FreeText.Decided true).
Proof.
  split.
  - intros r. unfold FreeText.keywordVerdict. rewrite negativeKeywords_collapse. reflexivity.
  - intros r (pre & suf & H). unfold FreeText.keywordVerdict.
    assert (Hp : some (fun keyword => str_includes (toLowerCase r) keyword)
                      FreeText.positiveKeywords = true).
    { apply some_includes_iff. exists "it does". split; [right; left; reflexivity|].
      exists pre, (" not" ++ suf). rewrite H. f_equal. }
    rewrite Hp. reflexivity.
Qed.

Lemma X7_witness :
  FreeText.keywordVerdict "It does not show the hat." = FreeText.Decided true.
Proof.
  destruct X7_negative_keywords_reduce_to_no as [_ H]. apply H.
  exists EmptyString, " show the hat.". reflexivity.
Defined.

(** X8: the verdict printed by the free-text [main]: a failed lookup, a
    missing image URL or a throwing inference call each give the
    [false (due to error: ...)] result with that error's message, and an
    empty or null answer gives [false (no OpenAI response)]. A decided
    verdict only comes from a non-empty answer returned for the found image,
    through the keyword matching. *)
Theorem X8_free_main_verdicts (tw : string + TweetResp) (oa : FreeText.Request -> string + FreeText.Resp) :
  (forall msg, snd (fetchTweetData FreeText.TWEET_ID tw) = inl msg ->
     fst (FreeText.main_free tw oa) = FreeText.ErrorFalse msg) /\
  (forall res, snd (fetchTweetData FreeText.TWEET_ID tw) = inr res -> truthy (imageUrl res) = false ->
     fst (FreeText.main_free tw oa) =
       FreeText.ErrorFalse ("No image URL found for Tweet ID: " ++ FreeText.TWEET_ID ++ ".")) /\
  (forall res e, snd (fetchTweetData FreeText.TWEET_ID tw) = inr res -> truthy (imageUrl res) = true ->
     oa (FreeText.buildRequest (render (imageUrl res)) FreeText.question) = inl e ->
     fst (FreeText.main_free tw oa) =
       FreeText.ErrorFalse ("Failed to get response from OpenAI about the image. " ++ e)) /\
  (forall res o, snd (fetchTweetData FreeText.TWEET_ID tw) = inr res -> truthy (imageUrl res) = true ->
     snd (FreeText.askOpenAIAboutImage (render (imageUrl res)) FreeText.question oa) = inr o ->
     truthy o = false -> fst (FreeText.main_free tw oa) = FreeText.NoResponseFalse) /\
  (forall b, fst (FreeText.main_free tw oa) = FreeText.Decided b ->
     exists res r, snd (fetchTweetData FreeText.TWEET_ID tw) = inr res /\
       truthy (imageUrl res) = true /\
       snd (FreeText.askOpenAIAboutImage (render (imageUrl res)) FreeText.question oa) = inr (Some r) /\
       r <> EmptyString /\ FreeText.keywordVerdict r = FreeText.Decided b).
Proof.
  unfold FreeText.main_free.
  split; [|split; [|split; [|split]]].
  - intros msg ->. reflexivity.
  - intros res -> ->. reflexivity.
  - intros res e -> -> He. simpl negb. cbv iota.
    unfold FreeText.askOpenAIAboutImage at 1. rewrite He. reflexivity.
  - intros res o -> -> Ha Ho. simpl negb. cbv iota. rewrite Ha, Ho. reflexivity.
  - intros b. destruct (snd (fetchTweetData FreeText.TWEET_ID tw)) as [msg|res]; [discriminate|].
    destruct (truthy (imageUrl res)) eqn:Hi; simpl negb; cbv iota; [|discriminate].
    destruct (snd (FreeText.askOpenAIAboutImage _ _ _)) as [msg|o] eqn:Ha; [discriminate|].
    destruct (truthy o) eqn:Ho; [|discriminate].
    apply truthy_Some_inv in Ho as (r & -> & Hr). intros Hv.
    exists res, r. auto.
Qed.

Lemma X8_witness :
  fst (FreeText.main_free (inr ex_error_resp) ex_free_openai) =
    FreeText.ErrorFalse ("Failed to process tweet " ++ FreeText.TWEET_ID ++
                         ": Failed to fetch tweet: Could not find tweet with id: [1].") /\
  fst (FreeText.main_free (inr ex_gif_resp) ex_free_openai) =
    FreeText.ErrorFalse ("No image URL found for Tweet ID: " ++ FreeText.TWEET_ID ++ ".") /\
  fst (FreeText.main_free (inr ex_photo_resp) (fun _ => inl "Connection error.")) =
    FreeText.ErrorFalse ("Failed to get response from OpenAI about the image. " ++ "Connection error.") /\
  fst (FreeText.main_free (inr ex_photo_resp) ex_free_openai_null) = FreeText.NoResponseFalse.
Proof.
  split; [|split; [|split]].
  - destruct (X8_free_main_verdicts (inr ex_error_resp) ex_free_openai) as (H & _).
    apply H. reflexivity.
  - destruct (X8_free_main_verdicts (inr ex_gif_resp) ex_free_openai) as (_ & H & _).
    apply (H (mkResolved None (Some "gm"))); reflexivity.
  - destruct (X8_free_main_verdicts (inr ex_photo_resp) (fun _ => inl "Connection error."))
      as (_ & _ & H & _).
    apply (H (mkResolved (Some "https://pbs.twimg.com/a.jpg") (Some "hat"))); reflexivity.
  - destruct (X8_free_main_verdicts (inr ex_photo_resp) ex_free_openai_null) as (_ & _ & _ & H & _).
    apply (H (mkResolved (Some "https://pbs.twimg.com/a.jpg") (Some "hat")) None); reflexivity.
Defined.
